(** * EDNS options (dns/edns.py): a shallow embedding and its properties

    The module defines a small class hierarchy ([Option] and its three
    subclasses), a wire codec built on [struct.pack]/[struct.unpack] and
    string slicing, rich comparison methods derived from a per-class
    three-way [_cmp], and a registry (a dict) from option type codes to
    classes.  The source is Python 2 ([cmp], long literals). *)

From Stdlib Require Import ZArith Lia Bool Strings.Byte Strings.Ascii.
From stdpp Require Import base option list strings gmap.

Local Open Scope Z_scope.

(** ** Exceptions and results *)

Inductive PyExc : Set :=
| struct_error          (* struct.error *)
| AttributeError
| NotImplementedError
| ValueError.

Inductive result (A : Type) : Type :=
| Ok (a : A)
| Raise (e : PyExc).
Arguments Ok {A} a.
Arguments Raise {A} e.

Definition bind {A B} (r : result A) (k : A -> result B) : result B :=
  match r with
  | Ok a => k a
  | Raise e => Raise e
  end.

Notation "'let*' x ':=' r 'in' k" := (bind r (fun x => k))
  (at level 10, x name, r at level 100, k at level 200).

(** ** Byte strings

    A Python 2 [str] is a sequence of bytes. *)

Module Bytes.

Definition to_Z (b : byte) : Z := Z.of_N (Byte.to_N b).

(** The low eight bits of [z], as a byte (C's [(char)x]). *)
Definition of_Z (z : Z) : byte :=
  match Byte.of_N (Z.to_N (Z.land z 255)) with
  | Some b => b
  | None => x00
  end.

(** [s[lo:hi]] clamps each index to [0, len(s)], a negative index counting
    from the end, and is empty when the bounds cross. *)
Definition slice_bound (len i : Z) : Z :=
  if i <? 0 then Z.max 0 (i + len) else Z.min i len.

Definition slice {A} (s : list A) (lo hi : Z) : list A :=
  let n := Z.of_nat (length s) in
  let lo' := slice_bound n lo in
  let hi' := slice_bound n hi in
  take (Z.to_nat (hi' - lo')) (drop (Z.to_nat lo') s).

End Bytes.

(** ** The part of [struct] the module uses

    Formats start with ["!"]: network (big-endian) byte order, standard
    sizes, no padding.  The codes below are the unsigned integer ones. *)

Module struct.

Inductive code : Set := code_H | code_I | code_L | code_Q.

Definition code_size (c : code) : nat :=
  match c with
  | code_H => 2
  | code_I => 4
  | code_L => 4
  | code_Q => 8
  end%nat.

Definition code_of_ascii (a : Ascii.ascii) : option code :=
  if Ascii.eqb a "H"%char then Some code_H
  else if Ascii.eqb a "I"%char then Some code_I
  else if Ascii.eqb a "L"%char then Some code_L
  else if Ascii.eqb a "Q"%char then Some code_Q
  else None.

Fixpoint parse_codes (s : string) : option (list code) :=
  match s with
  | EmptyString => Some []
  | String a s' =>
      match code_of_ascii a, parse_codes s' with
      | Some c, Some cs => Some (c :: cs)
      | _, _ => None
      end
  end.

Definition parse (fmt : string) : option (list code) :=
  match fmt with
  | String a s' => if Ascii.eqb a "!"%char then parse_codes s' else None
  | EmptyString => None
  end.

Definition size_of (cs : list code) : nat :=
  foldr (fun c n => (code_size c + n)%nat) O cs.

(** [n] bytes of [v], most significant first. *)
Fixpoint pack_be (n : nat) (v : Z) : list byte :=
  match n with
  | O => []
  | S n' => Bytes.of_Z (Z.shiftr v (8 * Z.of_nat n')) :: pack_be n' v
  end.

(** [x = (x << 8) | *bytes++] over the field. *)
Definition unpack_be (bs : list byte) : Z :=
  fold_left (fun x b => Z.lor (Z.shiftl x 8) (Bytes.to_Z b)) bs 0.

Definition in_range (c : code) (v : Z) : bool :=
  (0 <=? v) && (v <? 2 ^ (8 * Z.of_nat (code_size c))).

(** One argument per code; a value outside the code's range is an error. *)
Fixpoint pack_fields (cs : list code) (args : list Z) : result (list byte) :=
  match cs, args with
  | [], [] => Ok []
  | c :: cs', v :: args' =>
      if in_range c v
      then let* rest := pack_fields cs' args' in
           Ok (pack_be (code_size c) v ++ rest)
      else Raise struct_error
  | _, _ => Raise struct_error
  end.

Definition pack (fmt : string) (args : list Z) : result (list byte) :=
  match parse fmt with
  | Some cs => pack_fields cs args
  | None => Raise struct_error
  end.

Fixpoint unpack_fields (cs : list code) (data : list byte) : list Z :=
  match cs with
  | [] => []
  | c :: cs' =>
      unpack_be (take (code_size c) data)
        :: unpack_fields cs' (drop (code_size c) data)
  end.

(** The string must have exactly the size the format calls for. *)
Definition unpack (fmt : string) (data : list byte) : result (list Z) :=
  match parse fmt with
  | Some cs =>
      if Nat.eqb (length data) (size_of cs)
      then Ok (unpack_fields cs data)
      else Raise struct_error
  | None => Raise struct_error
  end.

End struct.

(** Python 2's three-way [cmp] on integers, tuples of integers and
    strings. *)

Definition cmp_int (a b : Z) : Z :=
  if a <? b then -1 else if a =? b then 0 else 1.

(** Tuples: the first pair of unequal items decides; without one, the
    lengths do. *)
Fixpoint cmp_tuple (s t : list Z) : Z :=
  match s, t with
  | [], [] => 0
  | [], _ :: _ => -1
  | _ :: _, [] => 1
  | x :: s', y :: t' => if x =? y then cmp_tuple s' t' else cmp_int x y
  end.

(** Strings: [memcmp] over the common prefix (bytes as unsigned), then the
    lengths. *)
Fixpoint memcmp (s t : list byte) : Z :=
  match s, t with
  | x :: s', y :: t' =>
      let c := cmp_int (Bytes.to_Z x) (Bytes.to_Z y) in
      if c =? 0 then memcmp s' t' else c
  | _, _ => 0
  end.

Definition cmp_str (s t : list byte) : Z :=
  let n := Nat.min (length s) (length t) in
  let c := memcmp (take n s) (take n t) in
  if c =? 0 then cmp_int (Z.of_nat (length s)) (Z.of_nat (length t)) else c.

(** ** Module constants *)

Definition LLQ : Z := 1.
Definition UL : Z := 2.
Definition NSID : Z := 3.

Definition LLQ_ERROR_NOERROR : Z := 0.
Definition LLQ_ERROR_SERVFULL : Z := 1.
Definition LLQ_ERROR_STATIC : Z := 2.
Definition LLQ_ERROR_FORMAT : Z := 3.
Definition LLQ_ERROR_NOSUCH_LLQ : Z := 4.
Definition LLQ_ERROR_BADVER : Z := 5.
Definition LLQ_ERROR_UNKNOWN : Z := 6.
Definition LLQ_OPCODE_SETUP : Z := 1.
Definition LLQ_OPCODE_REFRESH : Z := 2.
Definition LLQ_OPCODE_EVENT : Z := 3.

(** ** Classes and instances

    An instance is tagged with its class and carries the attributes that
    class's [__init__] sets.  [LLQOption] and [ULOption] fix [otype]. *)

Inductive OptionClass : Set :=
| cls_Option
| cls_GenericOption
| cls_LLQOption
| cls_ULOption.

Inductive Option : Set :=
| BaseOption (otype : Z)
| GenericOption (otype : Z) (data : list byte)
| LLQOption (version opcode errorcode queryid leaselife : Z)
| ULOption (leaselength ulid : Z).

Definition class_of (o : Option) : OptionClass :=
  match o with
  | BaseOption _ => cls_Option
  | GenericOption _ _ => cls_GenericOption
  | LLQOption _ _ _ _ _ => cls_LLQOption
  | ULOption _ _ => cls_ULOption
  end.

Definition otype (o : Option) : Z :=
  match o with
  | BaseOption t => t
  | GenericOption t _ => t
  | LLQOption _ _ _ _ _ => LLQ
  | ULOption _ _ => UL
  end.

(** The values a comparison operand or result can be. *)
Inductive PyValue : Set :=
| PyNone
| PyInt (z : Z)
| PyStr (s : list byte)
| PyBool (b : bool)
| PyNotImplemented
| PyObject (addr : nat)   (* an instance of some other class *)
| PyOption (o : Option).

(** [isinstance(v, Option)] *)
Definition isinstance_Option (v : PyValue) : bool :=
  match v with
  | PyOption _ => true
  | _ => false
  end.

(** ** Encoding: [to_wire]

    [file] is the content of the sink; [file.write(s)] appends [s]. *)

Definition file_write (file s : list byte) : list byte := file ++ s.

Definition to_wire (self : Option) (file : list byte) : result (list byte) :=
  match self with
  | BaseOption _ => Raise NotImplementedError
  | GenericOption _ data => Ok (file_write file data)
  | LLQOption version opcode errorcode queryid leaselife =>
      let* wire := struct.pack "!HHHQL"
                     [version; opcode; errorcode; queryid; leaselife] in
      Ok (file_write file wire)
  | ULOption leaselength ulid =>
      let* wire := struct.pack "!QL" [ulid; leaselength] in
      Ok (file_write file wire)
  end.

(** ** Decoding: the [from_wire] class methods *)

Definition from_wire (cls : OptionClass) (otype : Z) (wire : list byte)
    (current olen : Z) : result Option :=
  match cls with
  | cls_Option => Raise NotImplementedError
  | cls_GenericOption =>
      Ok (GenericOption otype (Bytes.slice wire current (current + olen)))
  | cls_LLQOption =>
      let* fields := struct.unpack "!HHHQL"
                       (Bytes.slice wire current (current + olen)) in
      match fields with
      | [version; opcode; errorcode; queryid; leaselife] =>
          Ok (LLQOption version opcode errorcode queryid leaselife)
      | _ => Raise ValueError
      end
  | cls_ULOption =>
      let* fields := struct.unpack "!QL"
                       (Bytes.slice wire current (current + olen)) in
      match fields with
      | [ulid; leaselength] => Ok (ULOption leaselength ulid)
      | _ => Raise ValueError
      end
  end.

(** ** Comparison

    [_cmp] is looked up on [self]; reading an attribute [other] lacks raises
    [AttributeError]. *)

Definition _cmp (self other : Option) : result Z :=
  match self with
  | BaseOption _ => Raise NotImplementedError
  | GenericOption _ data =>
      match other with
      | GenericOption _ data' => Ok (cmp_str data data')
      | _ => Raise AttributeError
      end
  | LLQOption version opcode errorcode queryid leaselife =>
      match other with
      | LLQOption version' opcode' errorcode' queryid' leaselife' =>
          Ok (cmp_tuple
                [otype self; version; opcode; errorcode; queryid; leaselife]
                [otype other; version'; opcode'; errorcode'; queryid';
                 leaselife'])
      | _ => Raise AttributeError
      end
  | ULOption leaselength ulid =>
      match other with
      | ULOption leaselength' ulid' =>
          Ok (cmp_tuple [leaselength; ulid] [leaselength'; ulid'])
      | _ => Raise AttributeError
      end
  end.

Definition __eq__ (self : Option) (other : PyValue) : result PyValue :=
  match other with
  | PyOption other =>
      if negb (otype self =? otype other) then Ok (PyBool false)
      else let* c := _cmp self other in Ok (PyBool (c =? 0))
  | _ => Ok (PyBool false)
  end.

Definition __ne__ (self : Option) (other : PyValue) : result PyValue :=
  match other with
  | PyOption other =>
      if negb (otype self =? otype other) then Ok (PyBool false)
      else let* c := _cmp self other in Ok (PyBool (negb (c =? 0)))
  | _ => Ok (PyBool false)
  end.

Definition __lt__ (self : Option) (other : PyValue) : result PyValue :=
  match other with
  | PyOption other =>
      if negb (otype self =? otype other) then Ok PyNotImplemented
      else let* c := _cmp self other in Ok (PyBool (c <? 0))
  | _ => Ok PyNotImplemented
  end.

Definition __le__ (self : Option) (other : PyValue) : result PyValue :=
  match other with
  | PyOption other =>
      if negb (otype self =? otype other) then Ok PyNotImplemented
      else let* c := _cmp self other in Ok (PyBool (c <=? 0))
  | _ => Ok PyNotImplemented
  end.

Definition __ge__ (self : Option) (other : PyValue) : result PyValue :=
  match other with
  | PyOption other =>
      if negb (otype self =? otype other) then Ok PyNotImplemented
      else let* c := _cmp self other in Ok (PyBool (c >=? 0))
  | _ => Ok PyNotImplemented
  end.

Definition __gt__ (self : Option) (other : PyValue) : result PyValue :=
  match other with
  | PyOption other =>
      if negb (otype self =? otype other) then Ok PyNotImplemented
      else let* c := _cmp self other in Ok (PyBool (c >? 0))
  | _ => Ok PyNotImplemented
  end.

(** ** The comparison operators

    What the Python 2 interpreter makes of [a < b] and the like once the
    methods above have answered: [PyObject_RichCompare] of CPython 2's
    Objects/object.c, for two operands that are instances of the classes of
    this module.  Those are new-style classes with rich comparison methods,
    without [__cmp__] (so [tp_compare] is NULL) and without numeric slots
    (so no coercion applies and [PyNumber_Check] is false). *)

Inductive compare_op : Set := Py_LT | Py_LE | Py_EQ | Py_NE | Py_GT | Py_GE.

(** [_Py_SwappedOp] *)
Definition swapped_op (op : compare_op) : compare_op :=
  match op with
  | Py_LT => Py_GT
  | Py_LE => Py_GE
  | Py_EQ => Py_EQ
  | Py_NE => Py_NE
  | Py_GT => Py_LT
  | Py_GE => Py_LE
  end.

(** The [tp_richcompare] slot of a class with comparison methods calls the
    method named after the operator. *)
Definition tp_richcompare (self : Option) (other : PyValue) (op : compare_op)
    : result PyValue :=
  match op with
  | Py_LT => __lt__ self other
  | Py_LE => __le__ self other
  | Py_EQ => __eq__ self other
  | Py_NE => __ne__ self other
  | Py_GT => __gt__ self other
  | Py_GE => __ge__ self other
  end.

(** [tp_name] of a class created by a [class] statement: its name. *)
Definition tp_name (cls : OptionClass) : string :=
  match cls with
  | cls_Option => "Option"
  | cls_GenericOption => "GenericOption"
  | cls_LLQOption => "LLQOption"
  | cls_ULOption => "ULOption"
  end.

(** C's [strcmp], up to the sign of its result. *)
Fixpoint strcmp (s t : string) : Z :=
  match s, t with
  | EmptyString, EmptyString => 0
  | EmptyString, String _ _ => -1
  | String _ _, EmptyString => 1
  | String a s', String b t' =>
      if Ascii.eqb a b then strcmp s' t'
      else cmp_int (Z.of_N (N_of_ascii a)) (Z.of_N (N_of_ascii b))
  end.

Definition class_eqb (c d : OptionClass) : bool :=
  match c, d with
  | cls_Option, cls_Option
  | cls_GenericOption, cls_GenericOption
  | cls_LLQOption, cls_LLQOption
  | cls_ULOption, cls_ULOption => true
  | _, _ => false
  end.

(** [PyType_IsSubtype(c, d)]: the three variants derive from [Option]. *)
Definition issubtype (c d : OptionClass) : bool :=
  match d with
  | cls_Option => true
  | _ => class_eqb c d
  end.

(** An instance, at its address in memory. *)
Record object : Set := { ob_addr : Z; ob_value : Option }.

Definition ob_type (v : object) : OptionClass := class_of (ob_value v).

Definition is_NotImplemented (r : PyValue) : bool :=
  match r with
  | PyNotImplemented => true
  | _ => false
  end.

(** [convert_3way_to_object] *)
Definition convert_3way_to_object (op : compare_op) (c : Z) : PyValue :=
  PyBool match op with
         | Py_LT => c <? 0
         | Py_LE => c <=? 0
         | Py_EQ => c =? 0
         | Py_NE => negb (c =? 0)
         | Py_GT => c >? 0
         | Py_GE => c >=? 0
         end.

Section Interpreter.

(** Where the class objects live. *)
Variable type_addr : OptionClass -> Z.

(** [default_3way_compare]: instances of one type by address; otherwise by
    type name, and by the address of the types should the names tie. *)
Definition default_3way_compare (v w : object) : Z :=
  if class_eqb (ob_type v) (ob_type w)
  then cmp_int (ob_addr v) (ob_addr w)
  else
    let c := strcmp (tp_name (ob_type v)) (tp_name (ob_type w)) in
    if c <? 0 then -1
    else if c >? 0 then 1
    else if type_addr (ob_type v) <? type_addr (ob_type w) then -1 else 1.

(** [try_rich_compare]: the reflected method of [w] first when [w]'s type
    is a proper subtype of [v]'s, then [v]'s method, then [w]'s reflected
    method; the first answer other than [NotImplemented] is the result. *)
Definition try_rich_compare (v w : object) (op : compare_op)
    : result PyValue :=
  let* r1 :=
    if negb (class_eqb (ob_type v) (ob_type w))
       && issubtype (ob_type w) (ob_type v)
    then tp_richcompare (ob_value w) (PyOption (ob_value v)) (swapped_op op)
    else Ok PyNotImplemented in
  if is_NotImplemented r1 then
    let* r2 := tp_richcompare (ob_value v) (PyOption (ob_value w)) op in
    if is_NotImplemented r2
    then tp_richcompare (ob_value w) (PyOption (ob_value v)) (swapped_op op)
    else Ok r2
  else Ok r1.

(** [do_richcmp]: with [NotImplemented] from both sides and no three-way
    comparison to try, the default ordering decides. *)
Definition do_richcmp (v w : object) (op : compare_op) : result PyValue :=
  let* r := try_rich_compare v w op in
  if is_NotImplemented r
  then Ok (convert_3way_to_object op (default_3way_compare v w))
  else Ok r.

(** [PyObject_RichCompare]: the value of [v op w]. *)
Definition PyObject_RichCompare (v w : object) (op : compare_op)
    : result PyValue :=
  let* r :=
    if class_eqb (ob_type v) (ob_type w)
    then tp_richcompare (ob_value v) (PyOption (ob_value w)) op
    else Ok PyNotImplemented in
  if is_NotImplemented r then do_richcmp v w op else Ok r.

End Interpreter.

(** Some placement of the class objects, for examples. *)
Definition example_type_addr (cls : OptionClass) : Z :=
  match cls with
  | cls_Option => 4096
  | cls_GenericOption => 8192
  | cls_LLQOption => 12288
  | cls_ULOption => 16384
  end.

(** ** Registry and dispatch *)

Definition _type_to_class : gmap Z OptionClass :=
  <[LLQ := cls_LLQOption]> (<[UL := cls_ULOption]> ∅).

Definition get_option_class (otype : Z) : OptionClass :=
  match _type_to_class !! otype with
  | Some cls => cls
  | None => cls_GenericOption
  end.

Definition option_from_wire (otype : Z) (wire : list byte)
    (current olen : Z) : result Option :=
  let cls := get_option_class otype in
  from_wire cls otype wire current olen.

(** ** Construction of [LLQOption] and the entropy source

    [dns.entropy.between] lives outside this module: it is taken as a
    function on the state of the entropy pool.  A [def]'s default
    expressions are evaluated once, when the [def] statement runs, i.e.
    while the module body executes; the function object keeps the values. *)

Section Entropy.

Variable pool : Type.
Variable between : Z -> Z -> pool -> Z * pool.

(** What executing the module body leaves behind for [LLQOption.__init__]:
    its tuple of defaults. *)
Record LLQOption_defaults : Type := {
  default_version : Z;
  default_opcode : Z;
  default_errorcode : Z;
  default_queryid : Z;
  default_leaselife : Z
}.

Definition exec_module (p : pool) : LLQOption_defaults * pool :=
  let (q, p') := between 0 18446744073709551615 p in
  ({| default_version := 1;
      default_opcode := LLQ_OPCODE_SETUP;
      default_errorcode := LLQ_ERROR_NOERROR;
      default_queryid := q;
      default_leaselife := 0 |}, p').

(** A call of [LLQOption(...)]; [None] is an argument left out.  The body
    only assigns attributes. *)
Definition LLQOption___init__ (d : LLQOption_defaults)
    (version opcode errorcode queryid leaselife : option Z) (p : pool)
    : Option * pool :=
  (LLQOption (default (default_version d) version)
             (default (default_opcode d) opcode)
             (default (default_errorcode d) errorcode)
             (default (default_queryid d) queryid)
             (default (default_leaselife d) leaselife), p).

End Entropy.

Arguments exec_module {pool} between p.
Arguments LLQOption___init__ {pool} d version opcode errorcode queryid
  leaselife p.

(** A deterministic pool for examples: the [n]-th draw returns [lo + n]
    (wrapped into the interval). *)
Definition counting_between (lo hi : Z) (n : nat) : Z * nat :=
  (lo + Z.of_nat n mod (hi - lo + 1), S n).

Definition ULOption___init__ (leaselength ulid : option Z) : Option :=
  ULOption (default 0 leaselength) (default 0 ulid).

(** ** Vocabulary of the specification

    The specification speaks of lexicographic comparison and of field values
    that fit unsigned widths.  These definitions follow its words; the
    theorems relate them to the code above. *)

(** Strict lexicographic order on sequences, over a strict order [lt] on
    items: a proper prefix comes first, otherwise the first differing items
    decide. *)
Inductive lex_lt {A : Type} (lt : A -> A -> Prop) : list A -> list A -> Prop :=
| lex_lt_prefix y t : lex_lt lt [] (y :: t)
| lex_lt_item x y s t : lt x y -> lex_lt lt (x :: s) (y :: t)
| lex_lt_next x s t : lex_lt lt s t -> lex_lt lt (x :: s) (x :: t).

(** A three-way result [c] reports the lexicographic comparison of [s] and
    [t]. *)
Definition three_way {A : Type} (lt : A -> A -> Prop) (c : Z) (s t : list A)
    : Prop :=
  (c < 0 <-> lex_lt lt s t) /\ (c = 0 <-> s = t) /\ (0 < c <-> lex_lt lt t s).

Definition byte_lt (x y : byte) : Prop := Bytes.to_Z x < Bytes.to_Z y.

Definition u16 (v : Z) : Prop := 0 <= v < 2 ^ 16.
Definition u32 (v : Z) : Prop := 0 <= v < 2 ^ 32.
Definition u64 (v : Z) : Prop := 0 <= v < 2 ^ 64.

(** The field values of a variant instance fit their declared widths.  The
    abstract base class has no fields and no wire form. *)
Definition fits (o : Option) : Prop :=
  match o with
  | BaseOption _ => False
  | GenericOption t _ => u16 t
  | LLQOption version opcode errorcode queryid leaselife =>
      u16 version /\ u16 opcode /\ u16 errorcode /\ u64 queryid /\
      u32 leaselife
  | ULOption leaselength ulid => u32 leaselength /\ u64 ulid
  end.


(** * Properties *)

(** ** Bytes and slices *)

Module BytesFacts.

Lemma to_Z_range b : 0 <= Bytes.to_Z b < 256.
Proof.
  unfold Bytes.to_Z. pose proof (Byte.to_N_bounded b) as Hb. lia.
Qed.

Lemma to_Z_of_Z z : Bytes.to_Z (Bytes.of_Z z) = z mod 256.
Proof.
  unfold Bytes.to_Z, Bytes.of_Z.
  change 255 with (Z.ones 8). rewrite Z.land_ones by lia.
  change (2 ^ 8) with 256.
  pose proof (Z.mod_pos_bound z 256 ltac:(lia)) as Hm.
  destruct (Byte.of_N (Z.to_N (z mod 256))) as [b|] eqn:E.
  - apply Byte.to_of_N in E. rewrite E. lia.
  - apply Byte.of_N_None_iff in E. lia.
Qed.

Lemma to_Z_inj x y : Bytes.to_Z x = Bytes.to_Z y -> x = y.
Proof.
  unfold Bytes.to_Z. intros H. apply N2Z.inj in H.
  pose proof (Byte.of_to_N x) as Hx. pose proof (Byte.of_to_N y) as Hy.
  rewrite H in Hx. congruence.
Qed.

(** With a non-negative start and length the slice is a plain
    drop-then-take: the clamping is the one [take] and [drop] do. *)
Lemma slice_window {A} (s : list A) (current olen : Z) :
  0 <= current -> 0 <= olen ->
  Bytes.slice s current (current + olen)
  = take (Z.to_nat olen) (drop (Z.to_nat current) s).
Proof.
  intros Hc Ho. unfold Bytes.slice, Bytes.slice_bound.
  destruct (current <? 0) eqn:E1; [lia|].
  destruct (current + olen <? 0) eqn:E2; [lia|].
  destruct (Z_le_gt_dec current (Z.of_nat (length s))) as [Hle|Hgt].
  - rewrite (Z.min_l current) by lia.
    destruct (Z_le_gt_dec (current + olen) (Z.of_nat (length s))).
    + rewrite Z.min_l by lia. f_equal. lia.
    + rewrite Z.min_r by lia.
      rewrite !take_ge; [done| |]; rewrite length_drop; lia.
  - rewrite !drop_ge by lia. by rewrite !take_nil.
Qed.

Lemma slice_length {A} (s : list A) (current olen : Z) :
  0 <= current -> 0 <= olen ->
  Z.of_nat (length (Bytes.slice s current (current + olen)))
  = Z.min olen (Z.max 0 (Z.of_nat (length s) - current)).
Proof.
  intros Hc Ho. rewrite slice_window by done.
  rewrite length_take, length_drop. lia.
Qed.

(** Slicing exactly the middle part of [pre ++ w ++ post]. *)
Lemma slice_middle {A} (pre w post : list A) :
  Bytes.slice (pre ++ w ++ post) (Z.of_nat (length pre))
    (Z.of_nat (length pre) + Z.of_nat (length w)) = w.
Proof.
  rewrite slice_window by lia. rewrite !Nat2Z.id.
  rewrite drop_app_length. by rewrite take_app_length.
Qed.


Lemma of_Z_to_Z b : Bytes.of_Z (Bytes.to_Z b) = b.
Proof.
  apply to_Z_inj. rewrite to_Z_of_Z.
  apply Z.mod_small, to_Z_range.
Qed.

(** Inside the buffer the slice has the declared length, and its [i]-th
    byte is the buffer's byte at [current + i]. *)
Lemma slice_inside {A} (s : list A) (current olen : Z) :
  0 <= current -> 0 <= olen -> current + olen <= Z.of_nat (length s) ->
  length (Bytes.slice s current (current + olen)) = Z.to_nat olen /\
  forall i : nat, (i < Z.to_nat olen)%nat ->
    Bytes.slice s current (current + olen) !! i
    = s !! (Z.to_nat current + i)%nat.
Proof.
  intros Hc Ho Hin. rewrite slice_window by done. split.
  - rewrite length_take, length_drop. lia.
  - intros i Hi. rewrite lookup_take_lt by done. by rewrite lookup_drop.
Qed.

End BytesFacts.

(** ** [struct]: packing then unpacking *)

Module structFacts.
Import struct.

Lemma pack_be_length n v : length (pack_be n v) = n.
Proof. induction n as [|n IH]; simpl; [done | by rewrite IH]. Qed.

(** Shifting the accumulator and or-ing a byte in is [256 * x + b]. *)
Lemma shift_or_byte x b :
  0 <= b < 256 -> Z.lor (Z.shiftl x 8) b = x * 256 + b.
Proof.
  intros Hb. rewrite Z.shiftl_mul_pow2 by lia. change (2 ^ 8) with 256.
  assert (Hland : Z.land (x * 256) b = 0).
  { apply Z.bits_inj'. intros n Hn. rewrite Z.land_spec, Z.bits_0.
    destruct (Z_lt_ge_dec n 8) as [Hlt|Hge].
    - change 256 with (2 ^ 8). rewrite Z.mul_pow2_bits_low by lia. done.
    - rewrite (Z.bits_above_log2 b n); [apply andb_false_r | lia |].
      destruct (Z.eq_dec b 0) as [->|Hnz]; [simpl; lia|].
      apply Z.lt_le_trans with 8; [|lia].
      apply Z.log2_lt_pow2; lia. }
  rewrite <- Z.lxor_lor by done. symmetry. by apply Z.add_nocarry_lxor.
Qed.

Lemma unpack_be_from acc n v :
  fold_left (fun x b => Z.lor (Z.shiftl x 8) (Bytes.to_Z b)) (pack_be n v) acc
  = acc * 2 ^ (8 * Z.of_nat n) + v mod 2 ^ (8 * Z.of_nat n).
Proof.
  revert acc. induction n as [|n IH]; intros acc.
  - simpl. rewrite Z.mod_1_r. lia.
  - cbn [pack_be fold_left]. rewrite IH.
    rewrite shift_or_byte by apply BytesFacts.to_Z_range.
    rewrite BytesFacts.to_Z_of_Z, Z.shiftr_div_pow2 by lia.
    replace (8 * Z.of_nat (S n)) with (8 * Z.of_nat n + 8) by lia.
    rewrite Z.pow_add_r by lia. change (2 ^ 8) with 256.
    set (m := 2 ^ (8 * Z.of_nat n)).
    assert (Hm : 0 < m) by (apply Z.pow_pos_nonneg; lia).
    rewrite (Z.rem_mul_r v m 256) by lia. lia.
Qed.

Lemma unpack_pack_be n v :
  unpack_be (pack_be n v) = v mod 2 ^ (8 * Z.of_nat n).
Proof. unfold unpack_be. rewrite unpack_be_from. lia. Qed.

Lemma in_range_spec c v :
  in_range c v = true <-> 0 <= v < 2 ^ (8 * Z.of_nat (code_size c)).
Proof. unfold in_range. rewrite andb_true_iff. lia. Qed.

(** Packing succeeds exactly on one in-range argument per code. *)
Lemma pack_fields_ok cs args :
  Forall2 (fun c v => in_range c v = true) cs args ->
  exists w, pack_fields cs args = Ok w /\ length w = size_of cs.
Proof.
  intros H. induction H as [|c v cs args Hr _ IH].
  - by exists [].
  - destruct IH as (w & Hw & Hlen). cbn [pack_fields]. rewrite Hr, Hw.
    eexists; split; [done|].
    rewrite length_app, pack_be_length, Hlen. done.
Qed.

(** What was packed is read back, whatever follows in the string. *)
Lemma unpack_pack_fields cs : forall args w tail,
  pack_fields cs args = Ok w ->
  length w = size_of cs /\ unpack_fields cs (w ++ tail) = args.
Proof.
  induction cs as [|c cs IH]; intros args w tail Hp.
  - destruct args; simpl in Hp; [|done]. by injection Hp as <-.
  - destruct args as [|v args]; [done|]. cbn [pack_fields] in Hp.
    destruct (in_range c v) eqn:Hr; [|done].
    destruct (pack_fields cs args) as [rest|] eqn:Hrest; [|done].
    simpl in Hp. injection Hp as <-.
    destruct (IH _ _ tail Hrest) as [Hlen Hun].
    split.
    + rewrite length_app, pack_be_length, Hlen. done.
    + cbn [unpack_fields]. rewrite <- app_assoc.
      rewrite take_app_length' by (by rewrite pack_be_length).
      rewrite drop_app_length' by (by rewrite pack_be_length).
      rewrite Hun, unpack_pack_be. f_equal.
      apply Z.mod_small. by apply in_range_spec.
Qed.

Lemma unpack_pack fmt args w :
  pack fmt args = Ok w -> unpack fmt w = Ok args.
Proof.
  unfold pack, unpack. destruct (parse fmt) as [cs|]; [|done].
  intros Hp. destruct (unpack_pack_fields cs args w [] Hp) as [Hlen Hun].
  rewrite app_nil_r in Hun. rewrite Hlen, Nat.eqb_refl, Hun. done.
Qed.

(** [unpack] accepts a string of the format's size and no other. *)
Lemma unpack_wrong_size fmt cs data :
  parse fmt = Some cs -> length data <> size_of cs ->
  unpack fmt data = Raise struct_error.
Proof.
  intros Hf Hlen. unfold unpack. rewrite Hf.
  by apply Nat.eqb_neq in Hlen as ->.
Qed.

Lemma unpack_right_size fmt cs data :
  parse fmt = Some cs -> length data = size_of cs ->
  unpack fmt data = Ok (unpack_fields cs data).
Proof.
  intros Hf Hlen. unfold unpack. rewrite Hf, Hlen, Nat.eqb_refl. done.
Qed.

(** *** Unpacking then packing *)

Lemma unpack_be_cons b bs :
  unpack_be (b :: bs)
  = Bytes.to_Z b * 2 ^ (8 * Z.of_nat (length bs)) + unpack_be bs /\
  0 <= unpack_be bs < 2 ^ (8 * Z.of_nat (length bs)).
Proof.
  unfold unpack_be.
  set (f := fun x c => Z.lor (Z.shiftl x 8) (Bytes.to_Z c)).
  enough (H : forall l acc,
             fold_left f l acc
             = acc * 2 ^ (8 * Z.of_nat (length l)) + fold_left f l 0 /\
             0 <= fold_left f l 0 < 2 ^ (8 * Z.of_nat (length l))).
  { cbn [fold_left]. destruct (H bs (f 0 b)) as [-> Hb]. split; [|done].
    unfold f. rewrite shift_or_byte by apply BytesFacts.to_Z_range. lia. }
  induction l as [|c l IH]; intros acc.
  - simpl. lia.
  - cbn [fold_left length].
    destruct (IH (f acc c)) as [-> _]. destruct (IH (f 0 c)) as [-> Hb].
    set (r := fold_left f l 0) in *. clearbody r.
    unfold f. rewrite !shift_or_byte by apply BytesFacts.to_Z_range.
    pose proof (BytesFacts.to_Z_range c) as Hc.
    replace (8 * Z.of_nat (S (length l))) with (8 * Z.of_nat (length l) + 8)
      by lia.
    rewrite Z.pow_add_r by lia. change (2 ^ 8) with 256.
    set (m := 2 ^ (8 * Z.of_nat (length l))) in *. clearbody m.
    split; nia.
Qed.

Lemma unpack_be_range bs :
  0 <= unpack_be bs < 2 ^ (8 * Z.of_nat (length bs)).
Proof.
  destruct bs as [|b bs]; [by compute|].
  destruct (unpack_be_cons b bs) as [-> Hr].
  pose proof (BytesFacts.to_Z_range b) as Hb.
  replace (8 * Z.of_nat (length (b :: bs)))
    with (8 * Z.of_nat (length bs) + 8) by (cbn [length]; lia).
  rewrite Z.pow_add_r by lia. change (2 ^ 8) with 256.
  set (m := 2 ^ (8 * Z.of_nat (length bs))) in *. nia.
Qed.

(** The bytes above the field do not reach the packed string. *)
Lemma pack_be_high n : forall a r,
  pack_be n (a * 2 ^ (8 * Z.of_nat n) + r) = pack_be n r.
Proof.
  induction n as [|n IH]; intros a r; [done|].
  cbn [pack_be].
  replace (8 * Z.of_nat (S n)) with (8 * Z.of_nat n + 8) by lia.
  rewrite Z.pow_add_r by lia. change (2 ^ 8) with 256.
  set (m := 2 ^ (8 * Z.of_nat n)).
  assert (Hm : 0 < m) by (apply Z.pow_pos_nonneg; lia).
  f_equal.
  - apply BytesFacts.to_Z_inj. rewrite !BytesFacts.to_Z_of_Z.
    rewrite !Z.shiftr_div_pow2 by lia. fold m.
    replace (a * (m * 256) + r) with (r + a * 256 * m) by lia.
    rewrite Z.div_add by lia.
    by rewrite Z.mod_add by lia.
  - replace (a * (m * 256) + r) with (a * 256 * m + r) by lia. apply IH.
Qed.

Lemma pack_unpack_be bs : pack_be (length bs) (unpack_be bs) = bs.
Proof.
  induction bs as [|b bs IH]; [done|].
  destruct (unpack_be_cons b bs) as [-> Hr].
  cbn [length pack_be]. rewrite pack_be_high, IH. f_equal.
  rewrite Z.shiftr_div_pow2 by lia.
  set (m := 2 ^ (8 * Z.of_nat (length bs))) in *.
  replace (Bytes.to_Z b * m + unpack_be bs)
    with (unpack_be bs + Bytes.to_Z b * m) by lia.
  rewrite Z.div_add by lia. rewrite Z.div_small by done.
  apply BytesFacts.of_Z_to_Z.
Qed.

(** A string of the format's size unpacks to in-range values, which pack
    back to the string. *)
Lemma pack_unpack_fields cs : forall data,
  length data = size_of cs ->
  Forall2 (fun c v => in_range c v = true) cs (unpack_fields cs data) /\
  pack_fields cs (unpack_fields cs data) = Ok data.
Proof.
  induction cs as [|c cs IH]; intros data Hlen.
  - destruct data; [|done]. split; [constructor | done].
  - cbn [size_of foldr] in Hlen. fold (size_of cs) in Hlen.
    cbn [unpack_fields pack_fields].
    assert (Htake : length (take (code_size c) data) = code_size c)
      by (rewrite length_take; lia).
    assert (Hr : in_range c (unpack_be (take (code_size c) data)) = true).
    { apply in_range_spec.
      pose proof (unpack_be_range (take (code_size c) data)) as H.
      by rewrite Htake in H. }
    destruct (IH (drop (code_size c) data)) as [Hall Hpack].
    { rewrite length_drop. lia. }
    split; [by constructor|].
    rewrite Hr, Hpack. cbn [bind].
    rewrite <- Htake at 1. rewrite pack_unpack_be.
    by rewrite take_drop.
Qed.

Lemma pack_unpack fmt data args :
  unpack fmt data = Ok args -> pack fmt args = Ok data.
Proof.
  unfold pack, unpack. destruct (parse fmt) as [cs|]; [|done].
  destruct (Nat.eqb_spec (length data) (size_of cs)) as [E|E]; [|done].
  injection 1 as <-. by apply pack_unpack_fields.
Qed.

Lemma pack_length fmt cs args w :
  parse fmt = Some cs -> pack fmt args = Ok w -> length w = size_of cs.
Proof.
  unfold pack. intros ->. intros H.
  by destruct (unpack_pack_fields cs args w [] H).
Qed.

End structFacts.


(** ** [cmp] is lexicographic comparison *)

Module cmpFacts.

Lemma cmp_int_cases a b :
  (a < b /\ cmp_int a b = -1) \/ (a = b /\ cmp_int a b = 0) \/
  (b < a /\ cmp_int a b = 1).
Proof.
  unfold cmp_int. destruct (Z.ltb_spec a b); [lia|].
  destruct (Z.eqb_spec a b); lia.
Qed.

Lemma lex_lt_cons {A} (lt : A -> A -> Prop) x y s t :
  lex_lt lt (x :: s) (y :: t) <-> lt x y \/ (x = y /\ lex_lt lt s t).
Proof.
  split.
  - inversion 1; subst; auto.
  - intros [H|[-> H]]; [by apply lex_lt_item | by apply lex_lt_next].
Qed.

Section Keyed.
(** Items ordered through an injective integer key: integers
    themselves, or bytes by their unsigned value. *)
Context {A : Type} (key : A -> Z).
Hypothesis key_inj : forall a b, key a = key b -> a = b.

Let lt (a b : A) : Prop := key a < key b.

Lemma three_way_nil : three_way lt 0 [] [].
Proof. split; [|split]; split; try done; by inversion 1. Qed.

Lemma three_way_nil_l y t : three_way lt (-1) [] (y :: t).
Proof.
  split; [|split]; split; try done; try lia; try (by inversion 1).
  intros _. apply lex_lt_prefix.
Qed.

Lemma three_way_nil_r x s : three_way lt 1 (x :: s) [].
Proof.
  split; [|split]; split; try done; try lia; try (by inversion 1).
  intros _. apply lex_lt_prefix.
Qed.

Lemma three_way_step x y s t c :
  three_way lt c s t ->
  three_way lt (if key x =? key y then c else cmp_int (key x) (key y))
    (x :: s) (y :: t).
Proof.
  intros (Hlt & Heq & Hgt). unfold three_way. rewrite !lex_lt_cons.
  unfold lt in *.
  destruct (Z.eqb_spec (key x) (key y)) as [E|E].
  - apply key_inj in E as ->.
    rewrite Hlt, Heq, Hgt. repeat split; try tauto; try lia.
    + intros [H|[_ H]]; [lia | done].
    + by intros ->.
    + by injection 1.
    + intros [H|[_ H]]; [lia | done].
  - assert (x <> y) as Hne by (by intros ->).
    destruct (cmp_int_cases (key x) (key y))
      as [[H ->]|[[H ->]|[H ->]]]; [|done|].
    + repeat split; try tauto; try lia.
      * by injection 1.
      * intros [H'|[-> _]]; [lia | done].
    + repeat split; try tauto; try lia.
      * intros [H'|[-> _]]; [lia | done].
      * by injection 1.
Qed.
End Keyed.

(** Tuples of integers. *)
Lemma cmp_tuple_lex s : forall t, three_way Z.lt (cmp_tuple s t) s t.
Proof.
  induction s as [|x s IH]; intros [|y t]; cbn [cmp_tuple].
  - apply (three_way_nil id).
  - apply (three_way_nil_l id).
  - apply (three_way_nil_r id).
  - apply (three_way_step id); [done | apply IH].
Qed.

Lemma cmp_int_succ (a b : nat) :
  cmp_int (Z.of_nat (S a)) (Z.of_nat (S b))
  = cmp_int (Z.of_nat a) (Z.of_nat b).
Proof.
  destruct (cmp_int_cases (Z.of_nat a) (Z.of_nat b))
    as [[H ->]|[[H ->]|[H ->]]];
  destruct (cmp_int_cases (Z.of_nat (S a)) (Z.of_nat (S b)))
    as [[H' ->]|[[H' ->]|[H' ->]]]; lia.
Qed.

(** Strings: the source-level definition unfolds along both strings. *)
Lemma cmp_str_cons x y s t :
  cmp_str (x :: s) (y :: t)
  = if Bytes.to_Z x =? Bytes.to_Z y then cmp_str s t
    else cmp_int (Bytes.to_Z x) (Bytes.to_Z y).
Proof.
  unfold cmp_str. cbn [length Nat.min take memcmp].
  rewrite cmp_int_succ.
  destruct (cmp_int_cases (Bytes.to_Z x) (Bytes.to_Z y))
    as [[H ->]|[[H ->]|[H ->]]].
  - change (-1 =? 0) with false. cbv iota.
    destruct (Z.eqb_spec (Bytes.to_Z x) (Bytes.to_Z y)); [lia | done].
  - rewrite H, !Z.eqb_refl. done.
  - change (1 =? 0) with false. cbv iota.
    destruct (Z.eqb_spec (Bytes.to_Z x) (Bytes.to_Z y)); [lia | done].
Qed.

Lemma cmp_str_lex s : forall t, three_way byte_lt (cmp_str s t) s t.
Proof.
  induction s as [|x s IH]; intros [|y t].
  - apply (three_way_nil Bytes.to_Z).
  - apply (three_way_nil_l Bytes.to_Z).
  - apply (three_way_nil_r Bytes.to_Z).
  - rewrite cmp_str_cons.
    apply (three_way_step Bytes.to_Z); [apply BytesFacts.to_Z_inj | apply IH].
Qed.

Lemma cmp_tuple_refl s : cmp_tuple s s = 0.
Proof. by apply (cmp_tuple_lex s s). Qed.

Lemma cmp_str_refl s : cmp_str s s = 0.
Proof. by apply (cmp_str_lex s s). Qed.

(** *** Antisymmetry and transitivity *)

Lemma cmp_int_antisym a b : cmp_int b a = - cmp_int a b.
Proof.
  destruct (cmp_int_cases a b) as [[H ->]|[[H ->]|[H ->]]];
    destruct (cmp_int_cases b a) as [[H' ->]|[[H' ->]|[H' ->]]]; lia.
Qed.

Lemma cmp_tuple_antisym s : forall t, cmp_tuple t s = - cmp_tuple s t.
Proof.
  induction s as [|x s IH]; intros [|y t]; cbn [cmp_tuple]; try done.
  rewrite (Z.eqb_sym y x). destruct (x =? y); [apply IH|].
  apply cmp_int_antisym.
Qed.

Lemma cmp_str_nil_l y t : cmp_str [] (y :: t) = -1.
Proof.
  unfold cmp_str. cbn [length Nat.min take memcmp]. change (0 =? 0) with true.
  cbv iota.
  destruct (cmp_int_cases (Z.of_nat 0) (Z.of_nat (S (length t))))
    as [[H ->]|[[H ->]|[H ->]]]; lia.
Qed.

Lemma cmp_str_nil_r x s : cmp_str (x :: s) [] = 1.
Proof.
  unfold cmp_str. cbn [length Nat.min take memcmp]. change (0 =? 0) with true.
  cbv iota.
  destruct (cmp_int_cases (Z.of_nat (S (length s))) (Z.of_nat 0))
    as [[H ->]|[[H ->]|[H ->]]]; lia.
Qed.

Lemma cmp_str_antisym s : forall t, cmp_str t s = - cmp_str s t.
Proof.
  induction s as [|x s IH]; intros [|y t].
  - done.
  - by rewrite cmp_str_nil_l, cmp_str_nil_r.
  - by rewrite cmp_str_nil_l, cmp_str_nil_r.
  - rewrite !cmp_str_cons. rewrite (Z.eqb_sym (Bytes.to_Z y)).
    destruct (Bytes.to_Z x =? Bytes.to_Z y); [apply IH|].
    apply cmp_int_antisym.
Qed.

Lemma lex_lt_trans {A} (lt : A -> A -> Prop) :
  (forall a b c, lt a b -> lt b c -> lt a c) ->
  forall s t u, lex_lt lt s t -> lex_lt lt t u -> lex_lt lt s u.
Proof.
  intros Htrans s t u Hst. revert u.
  induction Hst as [y t|x y s t Hxy|x s t Hst IH]; intros u Htu.
  - inversion Htu; subst; apply lex_lt_prefix.
  - inversion Htu; subst.
    + apply lex_lt_item. eauto.
    + by apply lex_lt_item.
  - inversion Htu; subst.
    + by apply lex_lt_item.
    + apply lex_lt_next. by apply IH.
Qed.

(** Three-way results chain: below and below gives below. *)
Lemma three_way_trans {A} (lt : A -> A -> Prop) c1 c2 c3 s t u :
  (forall a b c, lt a b -> lt b c -> lt a c) ->
  three_way lt c1 s t -> three_way lt c2 t u -> three_way lt c3 s u ->
  c1 < 0 -> c2 < 0 -> c3 < 0.
Proof.
  intros Htrans (H1 & _) (H2 & _) (H3 & _) Hc1 Hc2.
  apply H3. eapply lex_lt_trans; [done | by apply H1 | by apply H2].
Qed.

End cmpFacts.

(** ** The decoders on a window *)

Module wireFacts.

Lemma parse_LLQ :
  struct.parse "!HHHQL"
  = Some [struct.code_H; struct.code_H; struct.code_H; struct.code_Q;
          struct.code_L].
Proof. reflexivity. Qed.

Lemma parse_UL : struct.parse "!QL" = Some [struct.code_Q; struct.code_L].
Proof. reflexivity. Qed.

(** [LLQOption.from_wire] fails exactly when the slice it takes does not
    have 18 bytes, and then with [struct.error]. *)
Lemma from_wire_LLQ otype wire current olen :
  let data := Bytes.slice wire current (current + olen) in
  (length data <> 18%nat /\
   from_wire cls_LLQOption otype wire current olen = Raise struct_error)
  \/
  (length data = 18%nat /\
   exists o, from_wire cls_LLQOption otype wire current olen = Ok o).
Proof.
  intros data. unfold from_wire. fold data.
  destruct (decide (length data = 18%nat)) as [E|E].
  - right. split; [done|].
    rewrite (structFacts.unpack_right_size _ _ _ parse_LLQ) by done.
    cbn [bind struct.unpack_fields]. eauto.
  - left. split; [done|].
    rewrite (structFacts.unpack_wrong_size _ _ _ parse_LLQ) by done.
    done.
Qed.

Lemma from_wire_UL otype wire current olen :
  let data := Bytes.slice wire current (current + olen) in
  (length data <> 12%nat /\
   from_wire cls_ULOption otype wire current olen = Raise struct_error)
  \/
  (length data = 12%nat /\
   exists o, from_wire cls_ULOption otype wire current olen = Ok o).
Proof.
  intros data. unfold from_wire. fold data.
  destruct (decide (length data = 12%nat)) as [E|E].
  - right. split; [done|].
    rewrite (structFacts.unpack_right_size _ _ _ parse_UL) by done.
    cbn [bind struct.unpack_fields]. eauto.
  - left. split; [done|].
    rewrite (structFacts.unpack_wrong_size _ _ _ parse_UL) by done.
    done.
Qed.


End wireFacts.

(** Operands of different [otype] take the second early return of [__eq__]
    and of [__ne__]: both answer [False]. *)
Lemma eq_ne_cross_type a b :
  otype a <> otype b ->
  __eq__ a (PyOption b) = Ok (PyBool false) /\
  __ne__ a (PyOption b) = Ok (PyBool false).
Proof.
  intros H. unfold __eq__, __ne__.
  by apply Z.eqb_neq in H as ->.
Qed.

(** ** The claims *)

(** C1 (the code departs from it).  A default-constructed [LLQOption] does
    not draw its [queryid] when it is constructed: the draw is made once,
    while the module body runs, and kept among the defaults of [__init__].
    For every entropy source, two default constructions made at any two
    later states of the pool yield the same instance, carrying that one
    draw, and neither touches the pool. *)
Theorem C1_default_queryid_drawn_at_module_load
    {pool : Type} (between : Z -> Z -> pool -> Z * pool) (p p1 p2 : pool) :
  let d := (exec_module between p).1 in
  let a := LLQOption___init__ d None None None None None p1 in
  let b := LLQOption___init__ d None None None None None p2 in
  a.1 = LLQOption 1 LLQ_OPCODE_SETUP LLQ_ERROR_NOERROR
          (between 0 18446744073709551615 p).1 0 /\
  b.1 = a.1 /\ a.2 = p1 /\ b.2 = p2.
Proof.
  unfold exec_module. destruct (between 0 18446744073709551615 p) as [q p'].
  done.
Qed.

(** With a source whose successive draws are 0, 1, 2, ...: the module body
    takes 0, and both instances built afterwards carry 0, although the
    source would have handed out 1 and then 2. *)
Example default_queryid_counting :
  let '(d, p1) := exec_module counting_between O in
  let '(a, p2) := LLQOption___init__ d None None None None None p1 in
  let '(b, p3) := LLQOption___init__ d None None None None None p2 in
  a = LLQOption 1 1 0 0 0 /\ b = LLQOption 1 1 0 0 0 /\
  p1 = 1%nat /\ p3 = 1%nat /\
  (counting_between 0 18446744073709551615 p1).1 = 1.
Proof. vm_compute. done. Qed.

(** C2 (the code departs from it).  Operands of different [otype]: [==] is
    false, and so is [!=].  Here a [GenericOption] of type 3 whose payload
    is, byte for byte, the encoding of the [LLQOption] it is compared
    with. *)
Theorem C2_cross_type_ne_is_false :
  let b := LLQOption 1 1 0 7 0 in
  let a := GenericOption NSID
             [x00; x01; x00; x01; x00; x00; x00; x00; x00; x00; x00; x00;
              x00; x07; x00; x00; x00; x00] in
  to_wire a [] = to_wire b [] /\
  otype a <> otype b /\
  __eq__ a (PyOption b) = Ok (PyBool false) /\
  __ne__ a (PyOption b) = Ok (PyBool false) /\
  __eq__ b (PyOption a) = Ok (PyBool false) /\
  __ne__ b (PyOption a) = Ok (PyBool false).
Proof. vm_compute. repeat split; done. Qed.

(** C3, as the code has it.  The fixed-width decoders have no length check
    of their own: they fail, with [struct.error], when the slice
    [wire[current : current + olen]] does not have the format's size.  So a
    declared length in [0,64] other than 18 (12 for [ULOption]) is rejected
    whenever it is below the required width, and whenever the window lies
    inside the buffer. *)
Theorem C3_fixed_width_rejection (otype : Z) (wire : list byte)
    (current olen : Z) :
  0 <= current -> 0 <= olen <= 64 ->
  (olen <> 18 ->
   olen < 18 \/ current + olen <= Z.of_nat (length wire) ->
   from_wire cls_LLQOption otype wire current olen = Raise struct_error) /\
  (olen <> 12 ->
   olen < 12 \/ current + olen <= Z.of_nat (length wire) ->
   from_wire cls_ULOption otype wire current olen = Raise struct_error).
Proof.
  intros Hc Ho.
  pose proof (BytesFacts.slice_length wire current olen Hc (proj1 Ho)) as Hlen.
  split; intros Hne Hin.
  - destruct (wireFacts.from_wire_LLQ otype wire current olen)
      as [[_ H]|[H _]]; [done | lia].
  - destruct (wireFacts.from_wire_UL otype wire current olen)
      as [[_ H]|[H _]]; [done | lia].
Qed.

Lemma C3_fixed_width_rejection_witness :
  from_wire cls_LLQOption LLQ (repeat x00 20) 0 20 = Raise struct_error /\
  from_wire cls_ULOption UL (repeat x00 20) 0 20 = Raise struct_error.
Proof.
  pose proof (C3_fixed_width_rejection LLQ (repeat x00 20) 0 20
                ltac:(lia) ltac:(lia)) as [H _].
  pose proof (C3_fixed_width_rejection UL (repeat x00 20) 0 20
                ltac:(lia) ltac:(lia)) as [_ H'].
  split; [apply H | apply H']; first [lia | right; simpl; lia].
Defined.

(** C3 as stated fails: declared lengths 64 and 13, both in [0,64] and
    neither the required width, are accepted when exactly 18 (12) bytes
    remain in the buffer. *)
Lemma C3_counterexample :
  (0 <= 64 <= 64 /\ 64 <> 18 /\
   from_wire cls_LLQOption LLQ
     [x00; x01; x00; x01; x00; x00; x00; x00; x00; x00; x00; x00; x00; x07;
      x00; x00; x00; x00] 0 64
   = Ok (LLQOption 1 1 0 7 0)) /\
  (0 <= 13 <= 64 /\ 13 <> 12 /\
   from_wire cls_ULOption UL
     [x00; x00; x00; x00; x00; x00; x00; x2a; x00; x00; x0e; x10] 0 13
   = Ok (ULOption 3600 42)).
Proof. repeat split; try lia; reflexivity. Qed.




(** C5.  Round trip: an instance of one of the three variants whose fields
    fit their widths encodes to some bytes [w] (appended to the sink);
    decoding with the instance's class and type code, at the place where
    [w] sits in any buffer and with length [len(w)], succeeds and returns
    an instance with the same attributes, equal to the original under
    [==] in both directions. *)
Theorem C5_round_trip (x : Option) (file pre post : list byte) :
  fits x ->
  exists w y,
    to_wire x file = Ok (file ++ w) /\
    from_wire (class_of x) (otype x) (pre ++ w ++ post)
      (Z.of_nat (length pre)) (Z.of_nat (length w)) = Ok y /\
    y = x /\
    __eq__ y (PyOption x) = Ok (PyBool true) /\
    __eq__ x (PyOption y) = Ok (PyBool true).
Proof.
  intros Hfits.
  destruct x as [t|t data|version opcode errorcode queryid leaselife
                 |leaselength ulid]; [done| | |].
  - exists data, (GenericOption t data).
    unfold from_wire, class_of. rewrite BytesFacts.slice_middle.
    repeat split; try done;
      unfold __eq__, _cmp; rewrite Z.eqb_refl; cbn [negb bind];
      by rewrite cmpFacts.cmp_str_refl.
  - destruct Hfits as (Hv & Hop & He & Hq & Hl). unfold u16, u32, u64 in *.
    destruct (structFacts.pack_fields_ok
                [struct.code_H; struct.code_H; struct.code_H; struct.code_Q;
                 struct.code_L]
                [version; opcode; errorcode; queryid; leaselife])
      as (w & Hw & _).
    { repeat constructor; apply structFacts.in_range_spec; simpl; lia. }
    assert (Hpack : struct.pack "!HHHQL"
                      [version; opcode; errorcode; queryid; leaselife] = Ok w)
      by exact Hw.
    exists w, (LLQOption version opcode errorcode queryid leaselife).
    unfold to_wire, from_wire, class_of.
    rewrite Hpack, BytesFacts.slice_middle.
    rewrite (structFacts.unpack_pack _ _ _ Hpack).
    repeat split; try done;
      unfold __eq__, _cmp; rewrite Z.eqb_refl; cbn [negb bind];
      by rewrite cmpFacts.cmp_tuple_refl.
  - destruct Hfits as (Hl & Hu). unfold u32, u64 in *.
    destruct (structFacts.pack_fields_ok
                [struct.code_Q; struct.code_L] [ulid; leaselength])
      as (w & Hw & _).
    { repeat constructor; apply structFacts.in_range_spec; simpl; lia. }
    assert (Hpack : struct.pack "!QL" [ulid; leaselength] = Ok w)
      by exact Hw.
    exists w, (ULOption leaselength ulid).
    unfold to_wire, from_wire, class_of.
    rewrite Hpack, BytesFacts.slice_middle.
    rewrite (structFacts.unpack_pack _ _ _ Hpack).
    repeat split; try done;
      unfold __eq__, _cmp; rewrite Z.eqb_refl; cbn [negb bind];
      by rewrite cmpFacts.cmp_tuple_refl.
Qed.

Lemma C5_round_trip_witness :
  exists w y,
    to_wire (ULOption 3600 42) [] = Ok ([] ++ w) /\
    from_wire cls_ULOption UL ([xff] ++ w ++ [xfe])
      (Z.of_nat (length [xff])) (Z.of_nat (length w)) = Ok y /\
    y = ULOption 3600 42 /\
    __eq__ y (PyOption (ULOption 3600 42)) = Ok (PyBool true) /\
    __eq__ (ULOption 3600 42) (PyOption y) = Ok (PyBool true).
Proof.
  apply (C5_round_trip (ULOption 3600 42) [] [xff] [xfe]).
  unfold fits, u32, u64. lia.
Defined.

(** C6.  The comparison primitive [_cmp] is lexicographic comparison: for
    two [LLQOption]s, of the tuples (otype, version, opcode, errorcode,
    queryid, leaselife); for two [ULOption]s, of (leaselength, ulid),
    without the type; for two [GenericOption]s, of their payloads byte by
    byte (bytes as unsigned). *)
Theorem C6_cmp_is_lexicographic :
  (forall v o e q l v' o' e' q' l',
     let a := LLQOption v o e q l in
     let b := LLQOption v' o' e' q' l' in
     exists c, _cmp a b = Ok c /\
       three_way Z.lt c [otype a; v; o; e; q; l] [otype b; v'; o'; e'; q'; l'])
  /\
  (forall ll id ll' id',
     exists c, _cmp (ULOption ll id) (ULOption ll' id') = Ok c /\
       three_way Z.lt c [ll; id] [ll'; id'])
  /\
  (forall t d t' d',
     exists c, _cmp (GenericOption t d) (GenericOption t' d') = Ok c /\
       three_way byte_lt c d d').
Proof.
  split; [|split]; intros; eexists; (split; [reflexivity|]).
  - apply cmpFacts.cmp_tuple_lex.
  - apply cmpFacts.cmp_tuple_lex.
  - apply cmpFacts.cmp_str_lex.
Qed.

(** C7.  The two concrete encodings, and the decoding of the first. *)
Theorem C7_concrete_encodings :
  to_wire (ULOption___init__ (Some 3600) (Some 42)) []
  = Ok [x00; x00; x00; x00; x00; x00; x00; x2a; x00; x00; x0e; x10] /\
  from_wire cls_ULOption UL
    [x00; x00; x00; x00; x00; x00; x00; x2a; x00; x00; x0e; x10] 0 12
  = Ok (ULOption 3600 42) /\
  to_wire (LLQOption 1 1 0 7 0) []
  = Ok [x00; x01; x00; x01; x00; x00; x00; x00; x00; x00; x00; x00; x00;
        x07; x00; x00; x00; x00].
Proof. repeat split; reflexivity. Qed.

(** C8.  Resolution is total: the class registered for the code, and
    [GenericOption] for every code without an entry. *)
Theorem C8_get_option_class (t : Z) :
  get_option_class t
  = if decide (t = LLQ) then cls_LLQOption
    else if decide (t = UL) then cls_ULOption
    else cls_GenericOption.
Proof.
  unfold get_option_class, _type_to_class.
  destruct (decide (t = LLQ)) as [->|H1].
  - by rewrite lookup_insert_eq.
  - rewrite lookup_insert_ne by done.
    destruct (decide (t = UL)) as [->|H2].
    + by rewrite lookup_insert_eq.
    + rewrite lookup_insert_ne by done. by rewrite lookup_empty.
Qed.

(** C9, as the code has it.  Between operands of different [otype], each of
    the four ordering methods returns [NotImplemented], never a boolean of
    its own.  The operators [<], [<=], [>], [>=] do produce a boolean all
    the same: with [NotImplemented] from both operands the interpreter
    falls back on its default ordering, which looks at the class names (at
    the addresses, for two instances of one class) and at none of the
    options' fields. *)
Theorem C9_ordering_across_types (type_addr : OptionClass -> Z)
    (v w : object) :
  otype (ob_value v) <> otype (ob_value w) ->
  let a := ob_value v in
  let b := ob_value w in
  let c := default_3way_compare type_addr v w in
  (__lt__ a (PyOption b) = Ok PyNotImplemented /\
   __le__ a (PyOption b) = Ok PyNotImplemented /\
   __ge__ a (PyOption b) = Ok PyNotImplemented /\
   __gt__ a (PyOption b) = Ok PyNotImplemented) /\
  PyObject_RichCompare type_addr v w Py_LT = Ok (PyBool (c <? 0)) /\
  PyObject_RichCompare type_addr v w Py_LE = Ok (PyBool (c <=? 0)) /\
  PyObject_RichCompare type_addr v w Py_GT = Ok (PyBool (c >? 0)) /\
  PyObject_RichCompare type_addr v w Py_GE = Ok (PyBool (c >=? 0)).
Proof.
  intros H a b c.
  assert (Hab : (otype a =? otype b) = false) by by apply Z.eqb_neq.
  assert (Hba : (otype b =? otype a) = false)
    by (apply Z.eqb_neq; intros E; by apply H).
  split.
  { unfold __lt__, __le__, __ge__, __gt__. by rewrite Hab. }
  unfold PyObject_RichCompare, do_richcmp, try_rich_compare, tp_richcompare,
    swapped_op, __lt__, __le__, __ge__, __gt__.
  fold a b. rewrite Hab, Hba. cbn [negb].
  repeat split;
    destruct (class_eqb (ob_type v) (ob_type w));
    destruct (issubtype (ob_type w) (ob_type v)); reflexivity.
Qed.

Lemma C9_ordering_across_types_witness :
  let v := {| ob_addr := 64; ob_value := GenericOption NSID [x78] |} in
  let w := {| ob_addr := 32; ob_value := GenericOption 4 [x78] |} in
  let c := default_3way_compare example_type_addr v w in
  (__lt__ (ob_value v) (PyOption (ob_value w)) = Ok PyNotImplemented /\
   __le__ (ob_value v) (PyOption (ob_value w)) = Ok PyNotImplemented /\
   __ge__ (ob_value v) (PyOption (ob_value w)) = Ok PyNotImplemented /\
   __gt__ (ob_value v) (PyOption (ob_value w)) = Ok PyNotImplemented) /\
  PyObject_RichCompare example_type_addr v w Py_LT = Ok (PyBool (c <? 0)) /\
  PyObject_RichCompare example_type_addr v w Py_LE = Ok (PyBool (c <=? 0)) /\
  PyObject_RichCompare example_type_addr v w Py_GT = Ok (PyBool (c >? 0)) /\
  PyObject_RichCompare example_type_addr v w Py_GE = Ok (PyBool (c >=? 0)).
Proof.
  apply (C9_ordering_across_types example_type_addr
           {| ob_addr := 64; ob_value := GenericOption NSID [x78] |}
           {| ob_addr := 32; ob_value := GenericOption 4 [x78] |}).
  simpl. unfold NSID. lia.
Defined.

(** C9 as stated fails: [GenericOption(3, "x") < LLQOption(1, 1, 0, 7, 0)]
    is [True] and [>=] is [False]: the class name "GenericOption" sorts
    before "LLQOption".  The answer is a boolean, and one at odds with
    the type codes, 3 and 1. *)
Lemma C9_counterexample :
  let v := {| ob_addr := 64; ob_value := GenericOption NSID [x78] |} in
  let w := {| ob_addr := 32; ob_value := LLQOption 1 1 0 7 0 |} in
  otype (ob_value v) <> otype (ob_value w) /\
  PyObject_RichCompare example_type_addr v w Py_LT = Ok (PyBool true) /\
  PyObject_RichCompare example_type_addr v w Py_LE = Ok (PyBool true) /\
  PyObject_RichCompare example_type_addr v w Py_GT = Ok (PyBool false) /\
  PyObject_RichCompare example_type_addr v w Py_GE = Ok (PyBool false).
Proof. repeat split; try reflexivity. by compute. Qed.

(** C10.  Against an operand that is not an [Option] instance, [__eq__]
    and [__ne__] both return [False]. *)
Theorem C10_non_option_operand (x : Option) (y : PyValue) :
  isinstance_Option y = false ->
  __eq__ x y = Ok (PyBool false) /\ __ne__ x y = Ok (PyBool false).
Proof. intros H. by destruct y. Qed.

Lemma C10_non_option_operand_witness :
  __eq__ (ULOption 3600 42) (PyInt 42) = Ok (PyBool false) /\
  __ne__ (ULOption 3600 42) (PyInt 42) = Ok (PyBool false).
Proof.
  apply (C10_non_option_operand (ULOption 3600 42) (PyInt 42)).
  reflexivity.
Defined.

(** * Further properties of the module *)

(** ** Helpers *)

Module optionFacts.

Lemma get_option_class_cases (t : Z) :
  (t = LLQ /\ get_option_class t = cls_LLQOption) \/
  (t = UL /\ get_option_class t = cls_ULOption) \/
  (t <> LLQ /\ t <> UL /\ get_option_class t = cls_GenericOption).
Proof.
  unfold get_option_class, _type_to_class.
  destruct (decide (t = LLQ)) as [->|H1].
  { left. by rewrite lookup_insert_eq. }
  rewrite lookup_insert_ne by done.
  destruct (decide (t = UL)) as [->|H2].
  { right; left. by rewrite lookup_insert_eq. }
  rewrite lookup_insert_ne by done. rewrite lookup_empty. auto.
Qed.

(** What a successful [from_wire] read, per class. *)
Lemma from_wire_inv cls t wire current olen o :
  from_wire cls t wire current olen = Ok o ->
  let data := Bytes.slice wire current (current + olen) in
  match cls with
  | cls_Option => False
  | cls_GenericOption => o = GenericOption t data
  | cls_LLQOption =>
      exists v op e q l,
        o = LLQOption v op e q l /\
        struct.unpack "!HHHQL" data = Ok [v; op; e; q; l]
  | cls_ULOption =>
      exists ll id,
        o = ULOption ll id /\ struct.unpack "!QL" data = Ok [id; ll]
  end.
Proof.
  intros H data. destruct cls; unfold from_wire in H; fold data in H.
  - done.
  - by injection H as <-.
  - destruct (struct.unpack "!HHHQL" data) as [fields|] eqn:E; [|done].
    cbn [bind] in H.
    destruct fields as [|v [|op [|e [|q [|l [|]]]]]]; try done.
    injection H as <-. by exists v, op, e, q, l.
  - destruct (struct.unpack "!QL" data) as [fields|] eqn:E; [|done].
    cbn [bind] in H.
    destruct fields as [|id [|ll [|]]]; try done.
    injection H as <-. by exists ll, id.
Qed.

(** A successful [unpack] yields one in-range value per code. *)
Lemma unpack_in_range fmt cs data args :
  struct.parse fmt = Some cs -> struct.unpack fmt data = Ok args ->
  Forall2 (fun c v => struct.in_range c v = true) cs args.
Proof.
  unfold struct.unpack. intros ->.
  destruct (Nat.eqb_spec (length data) (struct.size_of cs)) as [E|E]; [|done].
  injection 1 as <-. by apply structFacts.pack_unpack_fields.
Qed.

(** What a successful [to_wire] wrote, per class. *)
Lemma to_wire_inv x file out :
  to_wire x file = Ok out ->
  exists w, out = file ++ w /\ to_wire x [] = Ok w /\
    match x with
    | BaseOption _ => False
    | GenericOption _ data => w = data
    | LLQOption v op e q l =>
        struct.pack "!HHHQL" [v; op; e; q; l] = Ok w /\ length w = 18%nat
    | ULOption ll id =>
        struct.pack "!QL" [id; ll] = Ok w /\ length w = 12%nat
    end.
Proof.
  destruct x as [t|t data|v op e q l|ll id]; unfold to_wire, file_write.
  - done.
  - injection 1 as <-. by exists data.
  - destruct (struct.pack "!HHHQL" [v; op; e; q; l]) as [w|] eqn:E; [|done].
    cbn [bind]. injection 1 as <-. exists w. repeat split; try done.
    apply (structFacts.pack_length _ _ _ _ wireFacts.parse_LLQ E).
  - destruct (struct.pack "!QL" [id; ll]) as [w|] eqn:E; [|done].
    cbn [bind]. injection 1 as <-. exists w. repeat split; try done.
    apply (structFacts.pack_length _ _ _ _ wireFacts.parse_UL E).
Qed.

(** Decoding what [to_wire] wrote, wherever it sits in a buffer. *)
Lemma decode_encoded x w pre post :
  to_wire x [] = Ok w ->
  from_wire (class_of x) (otype x) (pre ++ w ++ post)
    (Z.of_nat (length pre)) (Z.of_nat (length w)) = Ok x.
Proof.
  intros H. destruct (to_wire_inv _ _ _ H) as (w' & Hw & _ & Hx).
  simpl in Hw. subst w'.
  destruct x as [t|t data|v op e q l|ll id]; [done| | |];
    unfold from_wire, class_of; rewrite BytesFacts.slice_middle.
  - by subst.
  - destruct Hx as [Hp _]. by rewrite (structFacts.unpack_pack _ _ _ Hp).
  - destruct Hx as [Hp _]. by rewrite (structFacts.unpack_pack _ _ _ Hp).
Qed.

(** Encoding what [from_wire] returned gives back the slice it read. *)
Lemma encode_decoded cls t wire current olen o :
  from_wire cls t wire current olen = Ok o ->
  to_wire o [] = Ok (Bytes.slice wire current (current + olen)).
Proof.
  intros H. apply from_wire_inv in H. destruct cls; try done.
  - by subst.
  - destruct H as (v & op & e & q & l & -> & Hu).
    unfold to_wire. by rewrite (structFacts.pack_unpack _ _ _ Hu).
  - destruct H as (ll & id & -> & Hu).
    unfold to_wire. by rewrite (structFacts.pack_unpack _ _ _ Hu).
Qed.

End optionFacts.

Lemma fits_to_wire x : fits x -> exists w, to_wire x [] = Ok w.
Proof.
  destruct x as [t|t data|v op e q l|ll id]; cbn [fits]; [done| | |].
  - intros _. by exists data.
  - intros (Hv & Hop & He & Hq & Hl). unfold u16, u32, u64 in *.
    destruct (structFacts.pack_fields_ok
                [struct.code_H; struct.code_H; struct.code_H; struct.code_Q;
                 struct.code_L] [v; op; e; q; l]) as (w & Hw & _).
    { repeat constructor; apply structFacts.in_range_spec; simpl; lia. }
    exists w. unfold to_wire.
    change (struct.pack "!HHHQL" [v; op; e; q; l])
      with (struct.pack_fields
              [struct.code_H; struct.code_H; struct.code_H; struct.code_Q;
               struct.code_L] [v; op; e; q; l]).
    by rewrite Hw.
  - intros (Hl & Hu). unfold u32, u64 in *.
    destruct (structFacts.pack_fields_ok
                [struct.code_Q; struct.code_L] [id; ll]) as (w & Hw & _).
    { repeat constructor; apply structFacts.in_range_spec; simpl; lia. }
    exists w. unfold to_wire.
    change (struct.pack "!QL" [id; ll])
      with (struct.pack_fields [struct.code_Q; struct.code_L] [id; ll]).
    by rewrite Hw.
Qed.

Lemma to_wire_file x file w :
  to_wire x [] = Ok w -> to_wire x file = Ok (file ++ w).
Proof.
  destruct x as [t|t data|v op e q l|ll id]; unfold to_wire, file_write.
  - done.
  - by injection 1 as <-.
  - destruct (struct.pack "!HHHQL" [v; op; e; q; l]); [|done].
    cbn [bind]. by injection 1 as <-.
  - destruct (struct.pack "!QL" [id; ll]); [|done].
    cbn [bind]. by injection 1 as <-.
Qed.

(** ** Dispatch and decoding *)

(** X1.  An option decoded through [option_from_wire] always carries the
    type code it was decoded under, and is an instance of the class
    registered for that code: a [GenericOption] exactly for the codes
    without an entry. *)
Theorem X1_dispatch_keeps_type (t : Z) (wire : list byte) (current olen : Z)
    (o : Option) :
  option_from_wire t wire current olen = Ok o ->
  otype o = t /\ class_of o = get_option_class t /\
  (class_of o = cls_GenericOption <-> t <> LLQ /\ t <> UL).
Proof.
  unfold option_from_wire. intros H.
  pose proof (optionFacts.from_wire_inv _ _ _ _ _ _ H) as Hinv.
  destruct (optionFacts.get_option_class_cases t)
    as [[-> E]|[[-> E]|(H1 & H2 & E)]]; rewrite E in *; cbn zeta in Hinv.
  - destruct Hinv as (v & op & e & q & l & -> & _).
    repeat split; try done. by intros [? _].
  - destruct Hinv as (ll & id & -> & _).
    repeat split; try done. by intros [_ ?].
  - subst o. repeat split; done.
Qed.

Lemma X1_dispatch_keeps_type_witness :
  otype (ULOption 3600 42) = UL /\
  class_of (ULOption 3600 42) = get_option_class UL /\
  (class_of (ULOption 3600 42) = cls_GenericOption <-> UL <> LLQ /\ UL <> UL).
Proof.
  apply (X1_dispatch_keeps_type UL
           [x00; x00; x00; x00; x00; x00; x00; x2a; x00; x00; x0e; x10] 0 12).
  reflexivity.
Defined.

(** X2.  [GenericOption.from_wire] never fails, for any buffer and any
    integers [current] and [olen] (negative ones included): it returns a
    [GenericOption] of the given type whose payload is no longer than the
    buffer and, when [olen] is not negative, no longer than [olen]. *)
Theorem X2_generic_from_wire_total (t : Z) (wire : list byte)
    (current olen : Z) :
  exists data,
    from_wire cls_GenericOption t wire current olen
    = Ok (GenericOption t data) /\
    (length data <= length wire)%nat /\
    (0 <= olen -> Z.of_nat (length data) <= olen).
Proof.
  eexists. split; [reflexivity|].
  unfold Bytes.slice, Bytes.slice_bound.
  rewrite length_take, length_drop.
  destruct (Z.ltb_spec current 0), (Z.ltb_spec (current + olen) 0); lia.
Qed.

Lemma X2_generic_from_wire_total_witness :
  exists data,
    from_wire cls_GenericOption NSID [x61; x62; x63; x64] (-3) 2
    = Ok (GenericOption NSID data) /\
    (length data <= length [x61; x62; x63; x64])%nat /\
    Z.of_nat (length data) <= 2.
Proof.
  destruct (X2_generic_from_wire_total NSID [x61; x62; x63; x64] (-3) 2)
    as (data & H1 & H2 & H3).
  exists data. repeat split; [exact H1 | exact H2 | apply H3; lia].
Defined.

(** X3.  For a type code without a registry entry and a window inside the
    buffer, [option_from_wire] succeeds with a [GenericOption] of that type
    whose payload is exactly the [olen] bytes of the window, in order. *)
Theorem X3_dispatch_unregistered (t : Z) (wire : list byte)
    (current olen : Z) :
  t <> LLQ -> t <> UL ->
  0 <= current -> 0 <= olen -> current + olen <= Z.of_nat (length wire) ->
  exists data,
    option_from_wire t wire current olen = Ok (GenericOption t data) /\
    length data = Z.to_nat olen /\
    forall i : nat, (i < Z.to_nat olen)%nat ->
      data !! i = wire !! (Z.to_nat current + i)%nat.
Proof.
  intros H1 H2 Hc Ho Hin. unfold option_from_wire.
  destruct (optionFacts.get_option_class_cases t)
    as [[-> _]|[[-> _]|(_ & _ & ->)]]; [done|done|].
  eexists. split; [reflexivity|].
  by apply BytesFacts.slice_inside.
Qed.

Lemma X3_dispatch_unregistered_witness :
  exists data,
    option_from_wire NSID [x61; x62; x63; x64] 1 2
    = Ok (GenericOption NSID data) /\
    length data = Z.to_nat 2 /\
    forall i : nat, (i < Z.to_nat 2)%nat ->
      data !! i = [x61; x62; x63; x64] !! (Z.to_nat 1 + i)%nat.
Proof.
  apply (X3_dispatch_unregistered NSID [x61; x62; x63; x64] 1 2);
    unfold NSID, LLQ, UL; simpl; lia.
Defined.

(** X4.  Round trip through the dispatcher: an instance whose fields fit
    and whose class is the one registered for its type code (every
    [LLQOption] and [ULOption]; a [GenericOption] of an unregistered type)
    encodes, and [option_from_wire] under its type code, at the place of
    the encoding in any buffer, returns it. *)
Theorem X4_dispatch_round_trip (x : Option) (file pre post : list byte) :
  fits x -> class_of x = get_option_class (otype x) ->
  exists w,
    to_wire x file = Ok (file ++ w) /\
    option_from_wire (otype x) (pre ++ w ++ post)
      (Z.of_nat (length pre)) (Z.of_nat (length w)) = Ok x.
Proof.
  intros Hfits Hcls. destruct (fits_to_wire x Hfits) as [w Hw].
  exists w. split; [by apply to_wire_file|].
  unfold option_from_wire. rewrite <- Hcls.
  by apply optionFacts.decode_encoded.
Qed.

Lemma X4_dispatch_round_trip_witness :
  exists w,
    to_wire (LLQOption 1 1 0 7 0) [xff] = Ok ([xff] ++ w) /\
    option_from_wire (otype (LLQOption 1 1 0 7 0)) ([xfe] ++ w ++ [xfd])
      (Z.of_nat (length [xfe])) (Z.of_nat (length w))
    = Ok (LLQOption 1 1 0 7 0).
Proof.
  apply (X4_dispatch_round_trip (LLQOption 1 1 0 7 0) [xff] [xfe] [xfd]).
  - unfold fits, u16, u32, u64. lia.
  - reflexivity.
Defined.

(** X5.  Decode then encode: whatever class decoded it, an option that
    [from_wire] returned encodes without error, and [to_wire] appends to
    the sink exactly the bytes that were read, the slice
    [wire[current : current + olen]]. *)
Theorem X5_encode_decoded (cls : OptionClass) (t : Z) (wire : list byte)
    (current olen : Z) (o : Option) (file : list byte) :
  from_wire cls t wire current olen = Ok o ->
  to_wire o file
  = Ok (file ++ Bytes.slice wire current (current + olen)).
Proof.
  intros H. by apply to_wire_file, (optionFacts.encode_decoded cls t).
Qed.

Lemma X5_encode_decoded_witness :
  to_wire (ULOption 3600 42) [xff]
  = Ok ([xff] ++
        Bytes.slice
          [x00; x00; x00; x00; x00; x00; x00; x2a; x00; x00; x0e; x10; x99]
          0 (0 + 12)).
Proof.
  apply (X5_encode_decoded cls_ULOption UL
           [x00; x00; x00; x00; x00; x00; x00; x2a; x00; x00; x0e; x10; x99]
           0 12 (ULOption 3600 42) [xff]).
  reflexivity.
Defined.

(** X6.  Decoded field values are always within their unsigned widths:
    under a 16-bit type code, every option [from_wire] returns satisfies
    the width constraints of its class. *)
Theorem X6_decoded_fields_fit (cls : OptionClass) (t : Z) (wire : list byte)
    (current olen : Z) (o : Option) :
  u16 t -> from_wire cls t wire current olen = Ok o -> fits o.
Proof.
  intros Ht H. apply optionFacts.from_wire_inv in H.
  destruct cls; try done.
  - by subst.
  - destruct H as (v & op & e & q & l & -> & Hu).
    apply (optionFacts.unpack_in_range _ _ _ _ wireFacts.parse_LLQ) in Hu.
    repeat match goal with
           | H : Forall2 _ _ _ |- _ => inversion H; subst; clear H
           end.
    repeat match goal with
           | H : struct.in_range _ _ = true |- _ =>
               apply structFacts.in_range_spec in H; simpl in H
           end.
    unfold fits, u16, u32, u64. lia.
  - destruct H as (ll & id & -> & Hu).
    apply (optionFacts.unpack_in_range _ _ _ _ wireFacts.parse_UL) in Hu.
    repeat match goal with
           | H : Forall2 _ _ _ |- _ => inversion H; subst; clear H
           end.
    repeat match goal with
           | H : struct.in_range _ _ = true |- _ =>
               apply structFacts.in_range_spec in H; simpl in H
           end.
    unfold fits, u32, u64. lia.
Qed.

Lemma X6_decoded_fields_fit_witness : fits (ULOption 3600 42).
Proof.
  apply (X6_decoded_fields_fit cls_ULOption UL
           [x00; x00; x00; x00; x00; x00; x00; x2a; x00; x00; x0e; x10] 0 12).
  - unfold u16, UL. lia.
  - reflexivity.
Defined.

(** X7.  The fixed-width decoders validate nothing but the size: on a
    window of the required width inside the buffer (18 bytes for
    [LLQOption], 12 for [ULOption]) they always succeed, whatever the bytes
    are, e.g. with an opcode or error code outside the module's
    constants. *)
Theorem X7_fixed_width_accepts_any_bytes (t : Z) (wire : list byte)
    (current : Z) :
  0 <= current ->
  (current + 18 <= Z.of_nat (length wire) ->
   exists v op e q l,
     from_wire cls_LLQOption t wire current 18 = Ok (LLQOption v op e q l))
  /\
  (current + 12 <= Z.of_nat (length wire) ->
   exists ll id,
     from_wire cls_ULOption t wire current 12 = Ok (ULOption ll id)).
Proof.
  intros Hc. split; intros Hin.
  - pose proof (BytesFacts.slice_length wire current 18 Hc ltac:(lia)) as Hlen.
    destruct (wireFacts.from_wire_LLQ t wire current 18)
      as [[H _]|[_ [o Ho]]]; [lia|].
    destruct (optionFacts.from_wire_inv _ _ _ _ _ _ Ho)
      as (v & op & e & q & l & -> & _).
    by exists v, op, e, q, l.
  - pose proof (BytesFacts.slice_length wire current 12 Hc ltac:(lia)) as Hlen.
    destruct (wireFacts.from_wire_UL t wire current 12)
      as [[H _]|[_ [o Ho]]]; [lia|].
    destruct (optionFacts.from_wire_inv _ _ _ _ _ _ Ho)
      as (ll & id & -> & _).
    by exists ll, id.
Qed.

Lemma X7_fixed_width_accepts_any_bytes_witness :
  (exists v op e q l,
     from_wire cls_LLQOption LLQ (repeat xff 20) 1 18
     = Ok (LLQOption v op e q l)) /\
  (exists ll id,
     from_wire cls_ULOption UL (repeat xff 20) 1 12 = Ok (ULOption ll id)).
Proof.
  destruct (X7_fixed_width_accepts_any_bytes LLQ (repeat xff 20) 1
              ltac:(lia)) as [H1 _].
  destruct (X7_fixed_width_accepts_any_bytes UL (repeat xff 20) 1
              ltac:(lia)) as [_ H2].
  split; [apply H1 | apply H2]; simpl; lia.
Defined.



(** X9.  Encoding is injective within a class: two instances of the same
    class and type code that encode to the same bytes are the same
    instance. *)
Theorem X9_to_wire_injective (x y : Option) (w : list byte) :
  class_of x = class_of y -> otype x = otype y ->
  to_wire x [] = Ok w -> to_wire y [] = Ok w -> x = y.
Proof.
  intros Hcls Ht Hx Hy.
  pose proof (optionFacts.decode_encoded x w [] [] Hx) as Dx.
  pose proof (optionFacts.decode_encoded y w [] [] Hy) as Dy.
  rewrite Hcls, Ht in Dx. congruence.
Qed.

Lemma X9_to_wire_injective_witness :
  ULOption___init__ (Some 3600) (Some 42) = ULOption 3600 42.
Proof.
  apply (X9_to_wire_injective _ _
           [x00; x00; x00; x00; x00; x00; x00; x2a; x00; x00; x0e; x10]);
    reflexivity.
Defined.
